(** * RACM600: PMBus driver for the Recom RACM600-SL power supply

    A shallow embedding of [RACM600.cpp] / [RACM600.h].  The driver talks to
    two collaborators of the Arduino core, the two-wire master [Wire] and the
    console [Serial]; both are modelled as part of an explicit world that
    every member function threads through a small state monad.  Fixed-width
    integers are [Z] with the wrap-around of each C++ conversion written
    out. *)

From Stdlib Require Import ZArith List String Bool Lia.
Import ListNotations.
Open Scope string_scope.
Open Scope list_scope.
Open Scope Z_scope.

(** ** Fixed-width integers *)

(** Conversion to [uint8_t]. *)
Definition to_u8 (x : Z) : Z := x mod 256.

(** Conversion to [uint16_t]. *)
Definition to_u16 (x : Z) : Z := x mod 65536.

(** Range predicates for values that arrive already typed. *)
Definition is_u8 (x : Z) : Prop := 0 <= x < 256.
Definition is_u16 (x : Z) : Prop := 0 <= x < 65536.

(** Arduino.h: [#define lowByte(w) ((uint8_t) ((w) & 0xff))]. *)
Definition lowByte (w : Z) : Z := to_u8 (Z.land w 255).

(** Arduino.h: [#define highByte(w) ((uint8_t) ((w) >> 8))]. *)
Definition highByte (w : Z) : Z := to_u8 (Z.shiftr w 8).

(** A C++ integer used as a condition: true when it is not zero. *)
Definition truthy (x : Z) : bool := negb (x =? 0).

(** ** Register map (RACM600.h) *)

Definition RACM600_DEFAULT_ADDR : Z := 0x27.

Definition RACM600_OPERATION : Z := 0x01.
Definition RACM600_CLEAR_FAULTS : Z := 0x03.
Definition RACM600_STATUS_WORD : Z := 0x79.
Definition RACM600_STATUS_VOUT : Z := 0x7A.
Definition RACM600_STATUS_IOUT : Z := 0x7B.
Definition RACM600_STATUS_INPUT : Z := 0x7C.
Definition RACM600_STATUS_TEMPERATURE : Z := 0x7D.
Definition RACM600_STATUS_CML : Z := 0x7E.

(** ** The world the driver runs in *)

(** What the master drives on the two-wire bus: a write frame carries the
    7-bit address, the buffered bytes and whether a stop condition ends it
    ([false] leaves the bus held for a repeated start); a read frame carries
    the address and the number of bytes requested. *)
Inductive Frame : Type :=
| BusWrite (address : Z) (payload : list Z) (sendStop : bool)
| BusRead (address : Z) (quantity : Z).

(** Calls made on the console, in the order they are made. *)
Inductive SerialOut : Type :=
| Print (s : string)
| Println (s : string)
| PrintlnHex (n : Z).

(** The buffers of the [Wire] object: bytes queued by [write] since
    [beginTransmission], and bytes received by the last [requestFrom] that
    [read] has not consumed yet. *)
Record TwoWire : Type := mkTwoWire {
  txAddress : Z;
  txBuffer : list Z;
  rxBuffer : list Z
}.

(** [_address] is the only data member of the class.  [device] is what the
    slave will answer to the successive read requests (an absent or empty
    answer is a request that delivers nothing); [bus] and [serial] are logs,
    oldest entry first. *)
Record World : Type := mkWorld {
  _address : Z;
  wire : TwoWire;
  device : list (list Z);
  bus : list Frame;
  serial : list SerialOut
}.

(** ** State monad *)

Definition M (A : Type) : Type := World -> A * World.

Definition ret {A : Type} (a : A) : M A := fun w => (a, w).

Definition bind {A B : Type} (m : M A) (k : A -> M B) : M B :=
  fun w => let (a, w') := m w in k a w'.

Notation "x <- m ;; k" := (bind m (fun x => k))
  (at level 61, m at next level, right associativity).
Notation "m ;;; k" := (bind m (fun _ => k))
  (at level 61, right associativity).

Definition when (c : bool) (m : M unit) : M unit :=
  if c then m else ret tt.

(** Result and final world of a computation. *)
Definition eval {A : Type} (m : M A) (w : World) : A := fst (m w).
Definition exec {A : Type} (m : M A) (w : World) : World := snd (m w).

(** ** The two-wire master (Wire.h)

    [Wire] belongs to the Arduino core, not to this library; the model keeps
    what the driver relies on.  [beginTransmission] opens an empty transmit
    buffer, [write] queues one byte, [endTransmission] drives the queued
    bytes as one write frame, [requestFrom] replaces the receive buffer by
    at most [quantity] bytes of the device's next answer, [available] counts
    and [read] pops the received bytes.  The acknowledge status that
    [endTransmission] returns and the count that [requestFrom] returns are
    discarded at every call site of the driver, so both return [unit]
    here. *)
Module Wire.

Definition set_wire (t : TwoWire) (w : World) : World :=
  mkWorld (_address w) t (device w) (bus w) (serial w).

Definition beginTransmission (address : Z) : M unit := fun w =>
  (tt, set_wire (mkTwoWire address [] (rxBuffer (wire w))) w).

Definition write (data : Z) : M unit := fun w =>
  let t := wire w in
  (tt, set_wire (mkTwoWire (txAddress t) (txBuffer t ++ [to_u8 data]) (rxBuffer t)) w).

Definition endTransmission (sendStop : bool) : M unit := fun w =>
  let t := wire w in
  (tt, mkWorld (_address w)
               (mkTwoWire (txAddress t) [] (rxBuffer t))
               (device w)
               (bus w ++ [BusWrite (txAddress t) (txBuffer t) sendStop])
               (serial w)).

Definition requestFrom (address quantity : Z) : M unit := fun w =>
  let t := wire w in
  let answer := hd [] (device w) in
  (tt, mkWorld (_address w)
               (mkTwoWire (txAddress t) (txBuffer t)
                          (firstn (Z.to_nat quantity) answer))
               (tl (device w))
               (bus w ++ [BusRead address quantity])
               (serial w)).

Definition available : M Z := fun w =>
  (Z.of_nat (List.length (rxBuffer (wire w))), w).

(** [read] yields -1 on an empty buffer. *)
Definition read : M Z := fun w =>
  let t := wire w in
  match rxBuffer t with
  | [] => (-1, w)
  | b :: rest => (b, set_wire (mkTwoWire (txAddress t) (txBuffer t) rest) w)
  end.

End Wire.

(** ** The console (Serial)

    Each call is logged as made; [println_HEX n] stands for
    [Serial.println(n, HEX)]. *)
Module Serial.

Definition emit (o : SerialOut) : M unit := fun w =>
  (tt, mkWorld (_address w) (wire w) (device w) (bus w) (serial w ++ [o])).

Definition print (s : string) : M unit := emit (Print s).
Definition println (s : string) : M unit := emit (Println s).
Definition println_HEX (n : Z) : M unit := emit (PrintlnHex n).

End Serial.

(** ** The driver (RACM600.cpp) *)

(** [RACM600::RACM600(uint8_t i2c_address)] *)
Definition RACM600 (i2c_address : Z) (w : World) : World :=
  mkWorld (to_u8 i2c_address) (wire w) (device w) (bus w) (serial w).

Definition this_address : M Z := fun w => (_address w, w).

(** [uint16_t RACM600::readCommand(uint8_t cmd)] *)
Definition readCommand (cmd : Z) : M Z :=
  a <- this_address ;;
  Wire.beginTransmission a ;;;
  Wire.write cmd ;;;
  Wire.endTransmission false ;;;
  Wire.requestFrom a 2 ;;;
  n <- Wire.available ;;
  if 2 <=? n then
    l <- Wire.read ;;
    let low := to_u8 l in
    h <- Wire.read ;;
    let high := to_u8 h in
    ret (to_u16 (Z.lor (Z.shiftl high 8) low))
  else
    ret 0.

(** [void RACM600::writeCommand(uint8_t cmd, uint16_t value)] *)
Definition writeCommand (cmd value : Z) : M unit :=
  a <- this_address ;;
  Wire.beginTransmission a ;;;
  Wire.write cmd ;;;
  Wire.write (lowByte value) ;;;
  Wire.write (highByte value) ;;;
  Wire.endTransmission true.

(** [void RACM600::enableOutput()] *)
Definition enableOutput : M unit :=
  a <- this_address ;;
  Wire.beginTransmission a ;;;
  Wire.write RACM600_OPERATION ;;;
  Wire.write 0x80 ;;;
  Wire.endTransmission true.

(** [void RACM600::disableOutput()] *)
Definition disableOutput : M unit :=
  a <- this_address ;;
  Wire.beginTransmission a ;;;
  Wire.write RACM600_OPERATION ;;;
  Wire.write 0x00 ;;;
  Wire.endTransmission true.

(** [void RACM600::clearFaults()] *)
Definition clearFaults : M unit :=
  a <- this_address ;;
  Wire.beginTransmission a ;;;
  Wire.write RACM600_CLEAR_FAULTS ;;;
  Wire.endTransmission true.

(** A driver object at the default address on an idle bus whose device
    will give the listed answers. *)
Definition fresh (answers : list (list Z)) : World :=
  RACM600 RACM600_DEFAULT_ADDR (mkWorld 0 (mkTwoWire 0 [] []) answers [] []).

(** [void RACM600::readDetailedFault(uint8_t faultRegister, const char* faultType)] *)
Definition readDetailedFault (faultRegister : Z) (faultType : string) : M unit :=
  r <- readCommand faultRegister ;;
  let faultStatus := to_u8 r in
  Serial.print faultType ;;;
  Serial.print " Details: 0x" ;;;
  Serial.println_HEX faultStatus ;;;
  when (faultRegister =? RACM600_STATUS_VOUT) (
    when (truthy (Z.land faultStatus 0x80)) (Serial.println " - Output Overvoltage Fault") ;;;
    when (truthy (Z.land faultStatus 0x40)) (Serial.println " - Output Overvoltage Warning") ;;;
    when (truthy (Z.land faultStatus 0x10)) (Serial.println " - Output Undervoltage Warning") ;;;
    when (truthy (Z.land faultStatus 0x08)) (Serial.println " - Output Undervoltage Fault")) ;;;
  when (faultRegister =? RACM600_STATUS_IOUT) (
    when (truthy (Z.land faultStatus 0x80)) (Serial.println " - Output Overcurrent Fault") ;;;
    when (truthy (Z.land faultStatus 0x40)) (Serial.println " - Critical Constant Current Mode Fault") ;;;
    when (truthy (Z.land faultStatus 0x20)) (Serial.println " - Output Overcurrent Warning")) ;;;
  when (faultRegister =? RACM600_STATUS_INPUT) (
    when (truthy (Z.land faultStatus 0x80)) (Serial.println " - Input Overvoltage Fault") ;;;
    when (truthy (Z.land faultStatus 0x40)) (Serial.println " - Input Overvoltage Warning") ;;;
    when (truthy (Z.land faultStatus 0x10)) (Serial.println " - Input Undervoltage Warning") ;;;
    when (truthy (Z.land faultStatus 0x08)) (Serial.println " - Input Undervoltage Fault")) ;;;
  when (faultRegister =? RACM600_STATUS_TEMPERATURE) (
    when (truthy (Z.land faultStatus 0x80)) (Serial.println " - Overtemperature Fault") ;;;
    when (truthy (Z.land faultStatus 0x40)) (Serial.println " - Overtemperature Warning")) ;;;
  when (faultRegister =? RACM600_STATUS_CML) (
    when (truthy (Z.land faultStatus 0x80)) (Serial.println " - Invalid Command Received") ;;;
    when (truthy (Z.land faultStatus 0x40)) (Serial.println " - Invalid Data Received") ;;;
    when (truthy (Z.land faultStatus 0x20)) (Serial.println " - Packet Error Check Failed")).

(** [uint16_t RACM600::readFaults()] *)
Definition readFaults : M Z :=
  status <- readCommand RACM600_STATUS_WORD ;;
  Serial.print "Fault Status: 0x" ;;;
  Serial.println_HEX status ;;;
  if status =? 0 then
    Serial.println "No faults detected." ;;;
    ret status
  else
    when (truthy (Z.land status 0x0080)) (Serial.println "FAULT: Device Busy") ;;;
    when (truthy (Z.land status 0x0040)) (Serial.println "FAULT: Power Output Off") ;;;
    when (truthy (Z.land status 0x0020)) (
      Serial.println "FAULT: Output Overvoltage" ;;;
      readDetailedFault RACM600_STATUS_VOUT "Output Voltage Fault") ;;;
    when (truthy (Z.land status 0x0010)) (
      Serial.println "FAULT: Output Overcurrent" ;;;
      readDetailedFault RACM600_STATUS_IOUT "Output Current Fault") ;;;
    when (truthy (Z.land status 0x0008)) (
      Serial.println "FAULT: Input Undervoltage" ;;;
      readDetailedFault RACM600_STATUS_INPUT "Input Fault") ;;;
    when (truthy (Z.land status 0x0004)) (
      Serial.println "FAULT: Temperature Fault" ;;;
      readDetailedFault RACM600_STATUS_TEMPERATURE "Temperature Fault") ;;;
    when (truthy (Z.land status 0x0002)) (
      Serial.println "FAULT: Communication Fault (CML)" ;;;
      readDetailedFault RACM600_STATUS_CML "Communication Fault") ;;;
    when (truthy (Z.land status 0x0001)) (Serial.println "FAULT: Unknown Fault") ;;;
    when (truthy (Z.land status 0x8000)) (Serial.println "WARNING: Output Voltage Issue") ;;;
    when (truthy (Z.land status 0x4000)) (Serial.println "WARNING: Output Current or Power Issue") ;;;
    when (truthy (Z.land status 0x2000)) (Serial.println "WARNING: Input Voltage or Power Issue") ;;;
    when (truthy (Z.land status 0x1000)) (Serial.println "WARNING: Manufacturer-Specific Issue") ;;;
    when (truthy (Z.land status 0x0800)) (Serial.println "WARNING: Power Good Signal Lost") ;;;
    when (truthy (Z.land status 0x0200)) (Serial.println "WARNING: Fan or Airflow Issue") ;;;
    when (truthy (Z.land status 0x0100)) (Serial.println "WARNING: Other Status Warning") ;;;
    ret status.

(** ** Reference descriptions

    The statements below compare the driver with these data-driven
    descriptions: the frames of a word read, the word carried by a device
    answer, and the two bit tables of the fault model. *)

(** A world that differs only in what the device is going to answer. *)
Definition with_device (d : list (list Z)) (w : World) : World :=
  mkWorld (_address w) (wire w) d (bus w) (serial w).

(** The frames of one word read of register [cmd] from address [a]: the
    command byte written without a stop, then a request for two bytes. *)
Definition read_frames (a cmd : Z) : list Frame :=
  [BusWrite a [cmd] false; BusRead a 2].

(** The word a read yields for a device answer: little-endian when at
    least two bytes arrive, zero otherwise. *)
Definition word_of_answer (answer : list Z) : Z :=
  match answer with
  | l :: h :: _ => to_u16 (Z.lor (Z.shiftl (to_u8 h) 8) (to_u8 l))
  | _ => 0
  end.

(** Bit [mask] (a power of two) is set in [s]. *)
Definition has_bit (s mask : Z) : bool := Z.testbit s (Z.log2 mask).

(** Detail registers: for each register the bits it assigns and their
    description. *)
Definition detail_table : list (Z * list (Z * string)) :=
  [ (RACM600_STATUS_VOUT,
      [ (0x80, " - Output Overvoltage Fault");
        (0x40, " - Output Overvoltage Warning");
        (0x10, " - Output Undervoltage Warning");
        (0x08, " - Output Undervoltage Fault") ]);
    (RACM600_STATUS_IOUT,
      [ (0x80, " - Output Overcurrent Fault");
        (0x40, " - Critical Constant Current Mode Fault");
        (0x20, " - Output Overcurrent Warning") ]);
    (RACM600_STATUS_INPUT,
      [ (0x80, " - Input Overvoltage Fault");
        (0x40, " - Input Overvoltage Warning");
        (0x10, " - Input Undervoltage Warning");
        (0x08, " - Input Undervoltage Fault") ]);
    (RACM600_STATUS_TEMPERATURE,
      [ (0x80, " - Overtemperature Fault");
        (0x40, " - Overtemperature Warning") ]);
    (RACM600_STATUS_CML,
      [ (0x80, " - Invalid Command Received");
        (0x40, " - Invalid Data Received");
        (0x20, " - Packet Error Check Failed") ]) ].

(** One line per assigned bit that is set, in table order. *)
Definition flagged (v : Z) (bits : list (Z * string)) : list SerialOut :=
  flat_map (fun e => if has_bit v (fst e) then [Println (snd e)] else []) bits.

Definition detail_lines (reg v : Z) : list SerialOut :=
  flat_map (fun e => if reg =? fst e then flagged v (snd e) else []) detail_table.

(** Everything the console receives for one detail register whose bitmap
    is [v]. *)
Definition detail_report (reg : Z) (faultType : string) (v : Z) : list SerialOut :=
  Print faultType :: Print " Details: 0x" :: PrintlnHex v :: detail_lines reg v.

(** An entry of the status-word table: the bit, its category description
    and, for the five categories that have one, the detail register with
    the label its report is printed under. *)
Record Category : Type := mkCategory {
  mask : Z;
  description : string;
  detail : option (Z * string)
}.

(** The status-word table, in the order the driver tests the bits.  Bit
    0x0400 has no entry. *)
Definition status_table : list Category :=
  [ mkCategory 0x0080 "FAULT: Device Busy" None;
    mkCategory 0x0040 "FAULT: Power Output Off" None;
    mkCategory 0x0020 "FAULT: Output Overvoltage"
               (Some (RACM600_STATUS_VOUT, "Output Voltage Fault"));
    mkCategory 0x0010 "FAULT: Output Overcurrent"
               (Some (RACM600_STATUS_IOUT, "Output Current Fault"));
    mkCategory 0x0008 "FAULT: Input Undervoltage"
               (Some (RACM600_STATUS_INPUT, "Input Fault"));
    mkCategory 0x0004 "FAULT: Temperature Fault"
               (Some (RACM600_STATUS_TEMPERATURE, "Temperature Fault"));
    mkCategory 0x0002 "FAULT: Communication Fault (CML)"
               (Some (RACM600_STATUS_CML, "Communication Fault"));
    mkCategory 0x0001 "FAULT: Unknown Fault" None;
    mkCategory 0x8000 "WARNING: Output Voltage Issue" None;
    mkCategory 0x4000 "WARNING: Output Current or Power Issue" None;
    mkCategory 0x2000 "WARNING: Input Voltage or Power Issue" None;
    mkCategory 0x1000 "WARNING: Manufacturer-Specific Issue" None;
    mkCategory 0x0800 "WARNING: Power Good Signal Lost" None;
    mkCategory 0x0200 "WARNING: Fan or Airflow Issue" None;
    mkCategory 0x0100 "WARNING: Other Status Warning" None ].

(** Console output of the decoder for status word [s], walking a table:
    every set bit gives its description; a set bit with a detail register
    is followed by that register's report, decoded from the next pending
    device answer. *)
Fixpoint report (tbl : list Category) (s : Z) (answers : list (list Z))
  : list SerialOut :=
  match tbl with
  | [] => []
  | c :: tbl' =>
      if has_bit s (mask c) then
        match detail c with
        | None => Println (description c) :: report tbl' s answers
        | Some (reg, ty) =>
            Println (description c)
              :: detail_report reg ty (to_u8 (word_of_answer (hd [] answers)))
              ++ report tbl' s (tl answers)
        end
      else report tbl' s answers
  end.

(** Registers read after the summary read, in order. *)
Fixpoint secondary_reads (tbl : list Category) (s : Z) : list Z :=
  match tbl with
  | [] => []
  | c :: tbl' =>
      match detail c with
      | Some (reg, _) =>
          if has_bit s (mask c) then reg :: secondary_reads tbl' s
          else secondary_reads tbl' s
      | None => secondary_reads tbl' s
      end
  end.

(** A console line that names a status-word category. *)
Definition is_category_line (o : SerialOut) : bool :=
  match o with
  | Println s => String.prefix "FAULT: " s || String.prefix "WARNING: " s
  | _ => false
  end.

(** The driver's bit tests, replayed over a table. *)
Definition run_category (s : Z) (c : Category) : M unit :=
  when (truthy (Z.land s (mask c))) (
    Serial.println (description c) ;;;
    match detail c with
    | Some (reg, ty) => readDetailedFault reg ty
    | None => ret tt
    end).

Fixpoint run_table {A : Type} (s : Z) (tbl : list Category) (k : M A) : M A :=
  match tbl with
  | [] => k
  | c :: tbl' => run_category s c ;;; run_table s tbl' k
  end.

(** Console-only computations: the world changes by [out] appended to the
    console log and nothing else. *)
Definition prints (m : M unit) (out : list SerialOut) : Prop :=
  forall w, m w = (tt, mkWorld (_address w) (wire w) (device w) (bus w) (serial w ++ out)).

(** [w'] is [w] after the word reads of [regs], in order, each consuming
    one device answer, and after [out] was sent to the console; the data
    member is untouched. *)
Definition extends (w w' : World) (regs : list Z) (out : list SerialOut) : Prop :=
  _address w' = _address w /\
  device w' = skipn (List.length regs) (device w) /\
  bus w' = bus w ++ flat_map (read_frames (_address w)) regs /\
  serial w' = serial w ++ out.

(** Well-formed table entry: a single-bit mask and a byte-sized register. *)
Definition valid (c : Category) : Prop :=
  0 < mask c /\ mask c = 2 ^ Z.log2 (mask c) /\
  match detail c with Some (reg, _) => is_u8 reg | None => True end.

(** What is left unread in the receive buffer after a word read. *)
Definition unread (answer : list Z) : list Z :=
  match answer with
  | _ :: _ :: _ => []
  | _ => answer
  end.

(** The world a word read of [cmd] leaves behind. *)
Definition after_read (cmd : Z) (w : World) : World :=
  mkWorld (_address w)
          (mkTwoWire (_address w) [] (unread (firstn 2 (hd [] (device w)))))
          (tl (device w))
          (bus w ++ read_frames (_address w) (to_u8 cmd))
          (serial w).

(** A frame of a register query at address [a]: the one-byte write that
    names the register, left open for a repeated start, or a request for
    two bytes. *)
Definition is_query_frame (a : Z) (f : Frame) : Prop :=
  match f with
  | BusWrite a' payload sendStop =>
      a' = a /\ List.length payload = 1%nat /\ sendStop = false
  | BusRead a' quantity => a' = a /\ quantity = 2
  end.

(** The five detail registers. *)
Definition detail_registers : list Z :=
  [RACM600_STATUS_VOUT; RACM600_STATUS_IOUT; RACM600_STATUS_INPUT;
   RACM600_STATUS_TEMPERATURE; RACM600_STATUS_CML].

#[local] Arguments to_u8 : simpl never.
#[local] Arguments to_u16 : simpl never.
#[local] Arguments Z.land : simpl never.
#[local] Arguments Z.lor : simpl never.
#[local] Arguments Z.shiftl : simpl never.
#[local] Arguments Z.shiftr : simpl never.
#[local] Arguments Z.testbit : simpl never.
#[local] Arguments has_bit : simpl never.

(** Side conditions on the width of concrete values. *)
Ltac in_range :=
  unfold is_u8, is_u16, RACM600_STATUS_VOUT, RACM600_STATUS_IOUT,
    RACM600_STATUS_INPUT, RACM600_STATUS_TEMPERATURE, RACM600_STATUS_CML; lia.

(** * Properties *)

(** ** Bit arithmetic *)

Lemma land_pow2 (s k : Z) : 0 <= k ->
  Z.land s (2 ^ k) = if Z.testbit s k then 2 ^ k else 0.
Proof.
  intros Hk. apply Z.bits_inj'. intros n Hn.
  rewrite Z.land_spec, Z.pow2_bits_eqb by assumption.
  destruct (Z.eqb_spec k n) as [->|Hne].
  - destruct (Z.testbit s n) eqn:E; simpl.
    + now rewrite Z.pow2_bits_true.
    + now rewrite Z.bits_0.
  - rewrite andb_false_r. destruct (Z.testbit s k).
    + rewrite Z.pow2_bits_false; auto.
    + now rewrite Z.bits_0.
Qed.

Lemma truthy_land_pow2 (s k : Z) : 0 <= k ->
  truthy (Z.land s (2 ^ k)) = Z.testbit s k.
Proof.
  intros Hk. rewrite land_pow2 by assumption. unfold truthy.
  destruct (Z.testbit s k).
  - destruct (Z.eqb_spec (2 ^ k) 0) as [E|E]; [|reflexivity].
    assert (0 < 2 ^ k) by (apply Z.pow_pos_nonneg; lia). lia.
  - reflexivity.
Qed.

Lemma u8_bits_high (x n : Z) : is_u8 x -> 8 <= n -> Z.testbit x n = false.
Proof.
  intros Hx Hn. rewrite <- (Z.mod_small x (2 ^ 8)) by (unfold is_u8 in Hx; simpl; lia).
  apply Z.mod_pow2_bits_high. lia.
Qed.

Lemma to_u8_small (x : Z) : is_u8 x -> to_u8 x = x.
Proof. intros H. apply Z.mod_small. exact H. Qed.

Lemma word_of_bytes (low high : Z) : is_u8 low -> is_u8 high ->
  to_u16 (Z.lor (Z.shiftl (to_u8 high) 8) (to_u8 low)) = Z.lor low (Z.shiftl high 8).
Proof.
  intros Hl Hh. rewrite !to_u8_small by assumption.
  rewrite Z.lor_comm. unfold to_u16. change 65536 with (2 ^ 16).
  apply Z.bits_inj'. intros n Hn.
  destruct (Z.ltb_spec n 16).
  - apply Z.mod_pow2_bits_low. lia.
  - rewrite Z.mod_pow2_bits_high by lia.
    rewrite Z.lor_spec, Z.shiftl_spec by lia.
    rewrite (u8_bits_high low n), (u8_bits_high high (n - 8)) by (assumption || lia).
    reflexivity.
Qed.

Lemma low_byte_of_word (l h : Z) :
  to_u8 (to_u16 (Z.lor (Z.shiftl (to_u8 h) 8) (to_u8 l))) = to_u8 l.
Proof.
  unfold to_u8, to_u16. change 256 with (2 ^ 8). change 65536 with (2 ^ 16).
  apply Z.bits_inj'. intros n Hn.
  destruct (Z.ltb_spec n 8).
  - rewrite !Z.mod_pow2_bits_low by lia.
    rewrite Z.lor_spec, Z.shiftl_spec_low by lia.
    now rewrite Z.mod_pow2_bits_low by lia.
  - now rewrite !(Z.mod_pow2_bits_high _ 8) by lia.
Qed.

Lemma lowByte_mod (v : Z) : lowByte v = v mod 256.
Proof.
  unfold lowByte, to_u8. change 255 with (Z.ones 8).
  rewrite Z.land_ones by lia. change (2 ^ 8) with 256.
  apply Z.mod_mod. lia.
Qed.

Lemma highByte_div (v : Z) : is_u16 v -> highByte v = v / 256.
Proof.
  intros Hv. unfold highByte, to_u8. rewrite Z.shiftr_div_pow2 by lia.
  change (2 ^ 8) with 256. apply Z.mod_small.
  unfold is_u16 in Hv. split.
  - apply Z.div_pos; lia.
  - apply Z.div_lt_upper_bound; lia.
Qed.

(** ** The monad *)

Lemma exec_bind {A B : Type} (m : M A) (k : A -> M B) (w : World) :
  exec (bind m k) w = exec (k (eval m w)) (exec m w).
Proof. unfold exec, eval, bind. now destruct (m w). Qed.

Lemma run_eta {A : Type} (m : M A) (w : World) : m w = (eval m w, exec m w).
Proof. unfold eval, exec. now destruct (m w). Qed.

(** ** Console-only blocks *)

Lemma prints_emit (o : SerialOut) : prints (Serial.emit o) [o].
Proof. intros w. reflexivity. Qed.

Lemma prints_ret : prints (ret tt) [].
Proof. intros w. unfold ret. rewrite app_nil_r. now destruct w. Qed.

Lemma prints_when (c : bool) (m : M unit) (out : list SerialOut) :
  prints m out -> prints (when c m) (if c then out else []).
Proof. intros H. destruct c; simpl; [exact H | exact prints_ret]. Qed.

Lemma prints_seq (m1 m2 : M unit) (o1 o2 : list SerialOut) :
  prints m1 o1 -> prints m2 o2 -> prints (m1 ;;; m2) (o1 ++ o2).
Proof.
  intros H1 H2 w. unfold bind. rewrite H1, H2. simpl.
  now rewrite app_assoc.
Qed.

(** ** Word read *)

Lemma readCommand_run (cmd : Z) (w : World) :
  readCommand cmd w = (word_of_answer (hd [] (device w)), after_read cmd w).
Proof.
  destruct w as [a t d b s]. unfold after_read, read_frames. simpl.
  destruct d as [|[|l [|h more]] rest]; cbn; rewrite <- app_assoc; reflexivity.
Qed.

Lemma truthy_mask (s m : Z) : 0 < m -> m = 2 ^ Z.log2 m ->
  truthy (Z.land s m) = has_bit s m.
Proof.
  intros Hm E. unfold has_bit. rewrite E at 1.
  apply truthy_land_pow2. apply Z.log2_nonneg.
Qed.

Lemma prints_eq (m : M unit) (o o' : list SerialOut) :
  prints m o -> o = o' -> prints m o'.
Proof. now intros H <-. Qed.

(** ** Detail registers *)

Lemma readDetailedFault_run (reg : Z) (ty : string) (w : World) :
  readDetailedFault reg ty w =
  (tt, let w1 := after_read reg w in
       mkWorld (_address w1) (wire w1) (device w1) (bus w1)
               (serial w1 ++
                detail_report reg ty (to_u8 (word_of_answer (hd [] (device w)))))).
Proof.
  unfold readDetailedFault. unfold bind at 1. rewrite readCommand_run.
  cbv beta iota zeta.
  set (v := to_u8 (word_of_answer (hd [] (device w)))).
  match goal with |- ?m _ = _ => assert (P : prints m (detail_report reg ty v)) end.
  { eapply prints_eq.
    - repeat first [eapply prints_seq | eapply prints_when | eapply prints_emit].
    - rewrite !truthy_mask by (reflexivity || lia).
      unfold detail_report, detail_lines, detail_table, flagged. simpl.
      rewrite !app_nil_r. reflexivity. }
  apply P.
Qed.

(** ** Status word *)

Lemma extends_refl (w : World) : extends w w [] [].
Proof.
  unfold extends. simpl. now rewrite !app_nil_r.
Qed.

Lemma extends_trans (w w1 w2 : World) (r1 r2 : list Z) (o1 o2 : list SerialOut) :
  extends w w1 r1 o1 -> extends w1 w2 r2 o2 ->
  extends w w2 (r1 ++ r2) (o1 ++ o2).
Proof.
  intros (Ha1 & Hd1 & Hb1 & Hs1) (Ha2 & Hd2 & Hb2 & Hs2).
  unfold extends. repeat split.
  - congruence.
  - rewrite Hd2, Hd1, skipn_skipn, length_app. f_equal. lia.
  - rewrite Hb2, Hb1, Ha1, flat_map_app. now rewrite app_assoc.
  - rewrite Hs2, Hs1. now rewrite app_assoc.
Qed.

Lemma run_category_effect (s : Z) (c : Category) (w : World) :
  valid c ->
  extends w (exec (run_category s c) w)
          (secondary_reads [c] s) (report [c] s (device w)).
Proof.
  intros (Hpos & Hpow & Hreg).
  unfold run_category. rewrite truthy_mask by assumption.
  simpl. destruct (has_bit s (mask c)).
  - destruct (detail c) as [[reg ty]|]; simpl.
    + rewrite exec_bind. unfold exec at 1. rewrite readDetailedFault_run.
      unfold extends, after_read, read_frames. simpl.
      rewrite (to_u8_small reg) by assumption.
      rewrite !app_nil_r. repeat split.
      rewrite <- app_assoc. reflexivity.
    + unfold extends. simpl. rewrite !app_nil_r. repeat split.
  - destruct (detail c) as [[reg ty]|]; apply extends_refl.
Qed.

Lemma secondary_reads_cons (c : Category) (tbl : list Category) (s : Z) :
  secondary_reads (c :: tbl) s = secondary_reads [c] s ++ secondary_reads tbl s.
Proof.
  simpl. destruct (detail c) as [[reg ty]|]; [|reflexivity].
  now destruct (has_bit s (mask c)).
Qed.

Lemma report_cons (c : Category) (tbl : list Category) (s : Z)
      (answers : list (list Z)) :
  report (c :: tbl) s answers =
  report [c] s answers ++
  report tbl s (skipn (List.length (secondary_reads [c] s)) answers).
Proof.
  simpl. destruct (has_bit s (mask c)); [|now destruct (detail c) as [[? ?]|]].
  destruct (detail c) as [[reg ty]|]; simpl.
  - rewrite app_nil_r. now destruct answers.
  - reflexivity.
Qed.

Lemma run_table_effect {A : Type} (tbl : list Category) (s : Z) (k : M A) (w : World) :
  Forall valid tbl ->
  exists w', run_table s tbl k w = k w' /\
             extends w w' (secondary_reads tbl s) (report tbl s (device w)).
Proof.
  intros Hv. revert w. induction Hv as [|c tbl Hc Hv IH]; intros w.
  - exists w. split; [reflexivity | apply extends_refl].
  - destruct (IH (exec (run_category s c) w)) as (w' & Hrun & Hext).
    exists w'. split.
    + simpl. unfold bind. rewrite (run_eta (run_category s c) w). exact Hrun.
    + rewrite secondary_reads_cons, report_cons.
      pose proof (run_category_effect s c w Hc) as H1.
      eapply extends_trans; [exact H1|].
      destruct H1 as (_ & Hd & _). rewrite <- Hd. exact Hext.
Qed.

Lemma status_table_valid : Forall valid status_table.
Proof.
  unfold status_table, valid.
  repeat (constructor;
          [simpl; unfold is_u8; repeat split;
           first [exact I | reflexivity | (cbv; intro H; discriminate H)]|]).
  constructor.
Qed.

Lemma readFaults_unfold (w : World) :
  readFaults w =
  (status <- readCommand RACM600_STATUS_WORD ;;
   Serial.print "Fault Status: 0x" ;;;
   Serial.println_HEX status ;;;
   if status =? 0 then Serial.println "No faults detected." ;;; ret status
   else run_table status status_table (ret status)) w.
Proof. reflexivity. Qed.

Lemma readFaults_run (w : World) :
  let status := word_of_answer (hd [] (device w)) in
  exists w',
    readFaults w = (status, w') /\
    extends w w'
      (RACM600_STATUS_WORD ::
         (if status =? 0 then [] else secondary_reads status_table status))
      (Print "Fault Status: 0x" :: PrintlnHex status ::
         (if status =? 0 then [Println "No faults detected."]
          else report status_table status (tl (device w)))).
Proof.
  intros status. rewrite readFaults_unfold.
  unfold bind at 1. rewrite readCommand_run. fold status.
  set (w1 := after_read RACM600_STATUS_WORD w).
  assert (E1 : extends w w1 [RACM600_STATUS_WORD] []).
  { unfold extends, w1, after_read. simpl. rewrite !app_nil_r. repeat split. }
  set (w2 := mkWorld (_address w1) (wire w1) (device w1) (bus w1)
                     (serial w1 ++ [Print "Fault Status: 0x"; PrintlnHex status])).
  assert (E2 : extends w1 w2 [] [Print "Fault Status: 0x"; PrintlnHex status]).
  { unfold extends, w2. simpl. rewrite !app_nil_r. repeat split. }
  assert (Hrun : forall k : M Z,
    (Serial.print "Fault Status: 0x" ;;; Serial.println_HEX status ;;; k) w1 = k w2).
  { intros k. unfold w2, bind, Serial.print, Serial.println_HEX, Serial.emit. simpl.
    now rewrite <- app_assoc. }
  cbv beta iota. rewrite Hrun.
  pose proof (extends_trans _ _ _ _ _ _ _ E1 E2) as E12. simpl in E12.
  destruct (status =? 0).
  - eexists. split; [reflexivity|].
    apply (extends_trans _ _ _ _ _ _ _ E12). unfold extends. simpl.
    rewrite !app_nil_r. repeat split.
  - destruct (run_table_effect status_table status (ret status) w2 status_table_valid)
      as (w' & Hk & Hext).
    exists w'. split; [exact Hk|].
    apply (extends_trans _ _ _ _ _ _ _ E12) in Hext. exact Hext.
Qed.

(** * The register codec *)

(** C2. Whenever the transport delivers a pair of bytes [low], [high] (in
    that order), [readCommand] has put on the bus one write frame holding
    only the command byte, left open for a repeated start, followed by one
    request for exactly two bytes; it has consumed that single answer, and
    it returns [low | (high << 8)]: the first byte received is the
    low-order one. *)
Theorem readCommand_little_endian (w : World) (cmd low high : Z)
        (more : list Z) (rest : list (list Z)) :
  is_u8 cmd -> is_u8 low -> is_u8 high ->
  device w = (low :: high :: more) :: rest ->
  eval (readCommand cmd) w = Z.lor low (Z.shiftl high 8) /\
  bus (exec (readCommand cmd) w) =
    bus w ++ [BusWrite (_address w) [cmd] false; BusRead (_address w) 2] /\
  device (exec (readCommand cmd) w) = rest.
Proof.
  intros Hc Hl Hh Hd. unfold eval, exec. rewrite readCommand_run.
  unfold after_read, read_frames. simpl. rewrite Hd. simpl.
  rewrite (to_u8_small cmd) by assumption.
  split; [now apply word_of_bytes | split; reflexivity].
Qed.

Lemma readCommand_little_endian_witness :
  eval (readCommand 0x8B)
       (fresh [[0x34; 0x12]]) = 0x1234.
Proof.
  pose proof (readCommand_little_endian
                (fresh [[0x34; 0x12]])
                0x8B 0x34 0x12 [] []) as H.
  destruct H as (H & _ & _);
    [in_range | in_range | in_range | reflexivity |].
  exact H.
Defined.

(** C4. When the transport delivers fewer than two bytes (or nothing at
    all), [readCommand] returns 0.  The result is always a plain 16-bit
    word, and it is the very result obtained when the device answers with
    the two bytes 0, 0: the return value carries nothing that tells a
    failed read from a reading of zero. *)
Theorem readCommand_short_read (w : World) (cmd : Z) :
  (List.length (hd [] (device w)) < 2)%nat ->
  eval (readCommand cmd) w = 0 /\
  is_u16 (eval (readCommand cmd) w) /\
  eval (readCommand cmd) w =
    eval (readCommand cmd) (with_device ([0; 0] :: tl (device w)) w).
Proof.
  intros Hshort. unfold eval. rewrite !readCommand_run. simpl.
  assert (E : word_of_answer (hd [] (device w)) = 0).
  { destruct (hd [] (device w)) as [|l [|h more]]; simpl in *; try reflexivity. lia. }
  rewrite E. unfold is_u16. repeat split; lia || reflexivity.
Qed.

Lemma readCommand_short_read_witness :
  eval (readCommand 0x8B)
       (fresh [[0x34]]) = 0.
Proof.
  pose proof (readCommand_short_read
                (fresh [[0x34]]) 0x8B) as H.
  destruct H as (H & _ & _); [simpl; lia|].
  exact H.
Defined.

(** C6. For every command byte and every 16-bit value, [writeCommand] puts
    exactly one frame on the bus: a write, closed by a stop, of the three
    bytes command, low byte of the value, high byte of the value, in that
    order.  No read is issued: no device answer is consumed and the
    receive buffer is left as it was. *)
Theorem writeCommand_three_bytes (w : World) (cmd value : Z) :
  is_u8 cmd -> is_u16 value ->
  bus (exec (writeCommand cmd value) w) =
    bus w ++ [BusWrite (_address w) [cmd; value mod 256; value / 256] true] /\
  device (exec (writeCommand cmd value) w) = device w /\
  rxBuffer (wire (exec (writeCommand cmd value) w)) = rxBuffer (wire w).
Proof.
  intros Hc Hv. unfold exec, writeCommand. cbn.
  rewrite (to_u8_small cmd) by assumption.
  rewrite lowByte_mod, highByte_div by assumption.
  assert (is_u8 (value mod 256)) by (unfold is_u8; apply Z.mod_pos_bound; lia).
  assert (is_u8 (value / 256)).
  { unfold is_u8, is_u16 in *. split.
    - apply Z.div_pos; lia.
    - apply Z.div_lt_upper_bound; lia. }
  rewrite !to_u8_small by assumption.
  repeat split.
Qed.

Lemma writeCommand_three_bytes_witness :
  bus (exec (writeCommand 0x40 0x1234)
            (fresh [])) =
  [BusWrite 0x27 [0x40; 0x34; 0x12] true].
Proof.
  pose proof (writeCommand_three_bytes
                (fresh []) 0x40 0x1234) as H.
  destruct H as (H & _ & _); [in_range | in_range |].
  exact H.
Defined.

(** * Output control *)

(** C7. [enableOutput] puts on the bus one write frame holding the
    operation-control command (0x01) and the single payload byte 0x80;
    [disableOutput] one write frame holding the same command and the single
    payload byte 0x00.  Called one after the other they leave exactly these
    two frames, in that order, and nothing is read in between: no device
    answer is consumed. *)
Theorem enable_then_disable (w : World) :
  bus (exec enableOutput w) =
    bus w ++ [BusWrite (_address w) [0x01; 0x80] true] /\
  bus (exec disableOutput w) =
    bus w ++ [BusWrite (_address w) [0x01; 0x00] true] /\
  bus (exec (enableOutput ;;; disableOutput) w) =
    bus w ++ [BusWrite (_address w) [0x01; 0x80] true;
              BusWrite (_address w) [0x01; 0x00] true] /\
  device (exec (enableOutput ;;; disableOutput) w) = device w /\
  rxBuffer (wire (exec (enableOutput ;;; disableOutput) w)) = rxBuffer (wire w).
Proof.
  unfold exec, enableOutput, disableOutput. cbn.
  rewrite <- app_assoc. repeat split.
Qed.

(** C9. [clearFaults] puts exactly one frame on the bus: a write, closed by
    a stop, whose only byte is the clear-faults command 0x03.  Nothing is
    read (no device answer consumed, receive buffer untouched), nothing is
    printed, and the data member of the object keeps its value. *)
Theorem clearFaults_send_byte (w : World) :
  bus (exec clearFaults w) = bus w ++ [BusWrite (_address w) [0x03] true] /\
  device (exec clearFaults w) = device w /\
  rxBuffer (wire (exec clearFaults w)) = rxBuffer (wire w) /\
  serial (exec clearFaults w) = serial w /\
  _address (exec clearFaults w) = _address w.
Proof.
  unfold exec, clearFaults. cbn. repeat split.
Qed.

(** * The fault decoder *)

(** C3. [readFaults] returns the status word exactly as the summary read
    delivered it, whatever bits are set: for a two-byte answer that is
    [low | (high << 8)].  When that word is zero the console receives the
    status line and "No faults detected." and nothing else, the bus carries
    the summary read and no other frame, and only the one answer of the
    summary read has been consumed.  ([readFaults] is a total function of
    the world: it always returns.) *)
Theorem readFaults_returns_status (w : World) :
  eval readFaults w = eval (readCommand RACM600_STATUS_WORD) w /\
  (forall low high more rest,
      is_u8 low -> is_u8 high ->
      device w = (low :: high :: more) :: rest ->
      eval readFaults w = Z.lor low (Z.shiftl high 8)) /\
  (eval (readCommand RACM600_STATUS_WORD) w = 0 ->
   serial (exec readFaults w) =
     serial w ++ [Print "Fault Status: 0x"; PrintlnHex 0;
                  Println "No faults detected."] /\
   bus (exec readFaults w) =
     bus w ++ [BusWrite (_address w) [RACM600_STATUS_WORD] false;
               BusRead (_address w) 2] /\
   device (exec readFaults w) = tl (device w)).
Proof.
  destruct (readFaults_run w) as (w' & Hrun & Ha & Hd & Hb & Hs).
  unfold eval, exec. rewrite Hrun, readCommand_run. simpl.
  split; [reflexivity|]. split.
  - intros low high more rest Hl Hh E. rewrite E. simpl.
    now apply word_of_bytes.
  - intros Hz. rewrite Hz in *. simpl in *.
    now rewrite Hs, Hb, Hd.
Qed.

Lemma readFaults_returns_status_witness :
  serial (exec readFaults (fresh [[0; 0]])) =
    [Print "Fault Status: 0x"; PrintlnHex 0; Println "No faults detected."] /\
  eval readFaults (fresh [[0x21; 0x80]]) = 0x8021.
Proof.
  split.
  - pose proof (readFaults_returns_status
                  (fresh [[0; 0]])) as H.
    destruct H as (_ & _ & H). destruct (H eq_refl) as (Hs & _). exact Hs.
  - pose proof (readFaults_returns_status
                  (fresh [[0x21; 0x80]])) as H.
    destruct H as (_ & H & _).
    apply (H 0x21 0x80 [] []); [in_range | in_range | reflexivity].
Defined.

(** C5. For every 8-bit value [v] that the STATUS_VOUT detail register
    returns, the console receives the label and the value, then one line
    for each of the bits 7, 6, 4 and 3 that is set, each bit on its own:
    bit 7 "Output Overvoltage Fault", bit 6 "Output Overvoltage Warning",
    bit 4 "Output Undervoltage Warning", bit 3 "Output Undervoltage Fault".
    The other bits give no line. *)
Theorem status_vout_decoding (w : World) (ty : string) (v high : Z)
        (more : list Z) (rest : list (list Z)) :
  is_u8 v ->
  device w = (v :: high :: more) :: rest ->
  serial (exec (readDetailedFault RACM600_STATUS_VOUT ty) w) =
    serial w ++
    [Print ty; Print " Details: 0x"; PrintlnHex v] ++
    (if Z.testbit v 7 then [Println " - Output Overvoltage Fault"] else []) ++
    (if Z.testbit v 6 then [Println " - Output Overvoltage Warning"] else []) ++
    (if Z.testbit v 4 then [Println " - Output Undervoltage Warning"] else []) ++
    (if Z.testbit v 3 then [Println " - Output Undervoltage Fault"] else []).
Proof.
  intros Hv Hd. unfold exec. rewrite readDetailedFault_run. simpl.
  rewrite Hd. simpl. rewrite low_byte_of_word, to_u8_small by assumption.
  unfold detail_report, detail_lines, flagged, has_bit. simpl.
  rewrite !app_nil_r. reflexivity.
Qed.

Lemma status_vout_decoding_witness :
  serial (exec (readDetailedFault RACM600_STATUS_VOUT "Output Voltage Fault")
               (fresh [[0x88; 0]])) =
  [Print "Output Voltage Fault"; Print " Details: 0x"; PrintlnHex 0x88;
   Println " - Output Overvoltage Fault"; Println " - Output Undervoltage Fault"].
Proof.
  apply (status_vout_decoding
           (fresh [[0x88; 0]])
           "Output Voltage Fault" 0x88 0 [] []);
    [in_range | reflexivity].
Defined.

(** C10. A detail register is read through the generic word read: the bus
    carries the register's command byte and then a request for exactly two
    bytes.  Of the word that comes back, [low | (high << 8)], only the
    low-order eight bits reach the decoder: the value printed and decoded
    is [low], and the high byte plays no part in the report. *)
Theorem detail_read_truncates (w : World) (reg : Z) (ty : string) (low high : Z)
        (more : list Z) (rest : list (list Z)) :
  is_u8 reg -> is_u8 low -> is_u8 high ->
  device w = (low :: high :: more) :: rest ->
  bus (exec (readDetailedFault reg ty) w) =
    bus w ++ [BusWrite (_address w) [reg] false; BusRead (_address w) 2] /\
  eval (readCommand reg) w = Z.lor low (Z.shiftl high 8) /\
  (Z.lor low (Z.shiftl high 8)) mod 256 = low /\
  serial (exec (readDetailedFault reg ty) w) =
    serial w ++ detail_report reg ty low.
Proof.
  intros Hr Hl Hh Hd. unfold exec, eval.
  rewrite readDetailedFault_run, readCommand_run. simpl.
  rewrite Hd. simpl.
  pose proof (low_byte_of_word low high) as E.
  rewrite word_of_bytes, (to_u8_small low) in E by assumption.
  rewrite low_byte_of_word, word_of_bytes by assumption.
  rewrite (to_u8_small reg), (to_u8_small low) by assumption.
  split; [reflexivity|]. split; [reflexivity|]. split; [exact E | reflexivity].
Qed.

Lemma detail_read_truncates_witness :
  serial (exec (readDetailedFault RACM600_STATUS_CML "Communication Fault")
               (fresh [[0x80; 0xFF]])) =
  [Print "Communication Fault"; Print " Details: 0x"; PrintlnHex 0x80;
   Println " - Invalid Command Received"].
Proof.
  pose proof (detail_read_truncates
                (fresh [[0x80; 0xFF]])
                RACM600_STATUS_CML "Communication Fault" 0x80 0xFF [] []) as H.
  destruct H as (_ & _ & _ & H);
    [in_range | in_range | in_range | reflexivity |].
  exact H.
Defined.

Lemma detail_report_no_category (reg : Z) (ty : string) (v : Z) :
  Forall (fun o => is_category_line o = false) (detail_report reg ty v).
Proof.
  unfold detail_report. repeat (constructor; [reflexivity|]).
  unfold detail_lines. apply Forall_flat_map.
  unfold detail_table.
  repeat (constructor;
          [cbv beta; destruct (reg =? _); [|constructor];
           unfold flagged; apply Forall_flat_map;
           repeat (constructor;
                   [cbv beta; destruct (has_bit v _);
                    [constructor; [reflexivity|constructor] | constructor]|]);
           constructor|]).
  constructor.
Qed.

Lemma status_table_categories :
  Forall (fun c => is_category_line (Println (description c)) = true) status_table.
Proof. unfold status_table. repeat (constructor; [reflexivity|]). constructor. Qed.

Lemma status_table_descriptions (c c' : Category) :
  In c status_table -> In c' status_table ->
  description c = description c' -> mask c = mask c'.
Proof.
  unfold status_table. intros Hc Hc' E. simpl in Hc, Hc'.
  repeat (destruct Hc as [Hc|Hc]; [subst c|]); try contradiction;
    repeat (destruct Hc' as [Hc'|Hc']; [subst c'|]); try contradiction;
    first [reflexivity | discriminate E].
Qed.

Lemma report_category_line (tbl : list Category) (s : Z)
      (answers : list (list Z)) (o : SerialOut) :
  In o (report tbl s answers) -> is_category_line o = true ->
  exists c, In c tbl /\ has_bit s (mask c) = true /\ o = Println (description c).
Proof.
  revert answers. induction tbl as [|c tbl IH]; intros answers Hin Hcat; [contradiction|].
  cbn [report] in Hin. destruct (has_bit s (mask c)) eqn:Hb.
  - destruct (detail c) as [[reg ty]|].
    + destruct Hin as [<-|Hin]; [exists c; simpl; auto|].
      apply in_app_or in Hin. destruct Hin as [Hin|Hin].
      * pose proof (detail_report_no_category reg ty
                      (to_u8 (word_of_answer (hd [] answers)))) as Hno.
        rewrite Forall_forall in Hno. rewrite (Hno _ Hin) in Hcat. discriminate.
      * destruct (IH _ Hin Hcat) as (c' & ? & ? & ?). exists c'. simpl. auto.
    + destruct Hin as [<-|Hin]; [exists c; simpl; auto|].
      destruct (IH _ Hin Hcat) as (c' & ? & ? & ?). exists c'. simpl. auto.
  - destruct (IH _ Hin Hcat) as (c' & ? & ? & ?). exists c'. simpl. auto.
Qed.

Lemma report_has_description (tbl : list Category) (s : Z)
      (answers : list (list Z)) (c : Category) :
  In c tbl -> has_bit s (mask c) = true ->
  In (Println (description c)) (report tbl s answers).
Proof.
  revert answers. induction tbl as [|c0 tbl IH]; intros answers Hin Hb; [contradiction|].
  cbn [report]. destruct Hin as [->|Hin].
  - rewrite Hb. destruct (detail c) as [[reg ty]|]; left; reflexivity.
  - destruct (has_bit s (mask c0)); [|now apply IH].
    destruct (detail c0) as [[reg ty]|].
    + right. apply in_or_app. right. now apply IH.
    + right. now apply IH.
Qed.

Lemma has_bit_zero (m : Z) : has_bit 0 m = false.
Proof. unfold has_bit. apply Z.bits_0. Qed.

(** C1. Let [status] be the word the summary read returns.  [readFaults]
    treats each bit of it on its own:
    - the console receives the status line followed, for a non-zero word,
      by the walk of the status table: the description of every set bit
      and, after the descriptions of bits 0x0020, 0x0010, 0x0008, 0x0004
      and 0x0002, the report of the detail register read for that bit;
    - the description of a table entry is printed exactly when its bit is
      set, whatever the other bits are (bit 0x0400 has no entry);
    - after the summary read the bus carries one word read of STATUS_VOUT
      when bit 0x0020 is set, one of STATUS_IOUT when 0x0010 is set, one of
      STATUS_INPUT when 0x0008 is set, one of STATUS_TEMPERATURE when 0x0004
      is set, one of STATUS_CML when 0x0002 is set, in that order, and no
      other frame: bits 0x0080, 0x0040, 0x0001 and the warning bits cause no
      read. *)
Theorem readFaults_dispatch (w : World) (low high : Z)
        (more : list Z) (rest : list (list Z)) :
  is_u8 low -> is_u8 high ->
  device w = (low :: high :: more) :: rest ->
  let status := Z.lor low (Z.shiftl high 8) in
  let a := _address w in
  let secondary (m reg : Z) :=
    if has_bit status m then read_frames a reg else [] in
  let out :=
    if status =? 0 then [Println "No faults detected."]
    else report status_table status rest in
  serial (exec readFaults w) =
    serial w ++ Print "Fault Status: 0x" :: PrintlnHex status :: out /\
  (forall c, In c status_table ->
     (In (Println (description c)) out <-> has_bit status (mask c) = true)) /\
  bus (exec readFaults w) =
    bus w ++ read_frames a RACM600_STATUS_WORD
          ++ secondary 0x0020 RACM600_STATUS_VOUT
          ++ secondary 0x0010 RACM600_STATUS_IOUT
          ++ secondary 0x0008 RACM600_STATUS_INPUT
          ++ secondary 0x0004 RACM600_STATUS_TEMPERATURE
          ++ secondary 0x0002 RACM600_STATUS_CML.
Proof.
  intros Hl Hh Hdev status a secondary out.
  destruct (readFaults_run w) as (w' & Hrun & _ & _ & Hb & Hs).
  assert (Est : word_of_answer (hd [] (device w)) = status).
  { rewrite Hdev. simpl. now apply word_of_bytes. }
  rewrite Est, Hdev in *. simpl tl in Hs.
  unfold exec. rewrite Hrun. simpl snd. fold out in Hs.
  split; [exact Hs|]. split.
  - intros c Hc. unfold out. destruct (Z.eqb_spec status 0) as [E|E].
    + rewrite E, has_bit_zero. split; [|discriminate].
      intros [Hin|[]]. exfalso. injection Hin as Hin. revert Hin.
      unfold status_table in Hc. simpl in Hc.
      repeat (destruct Hc as [Hc|Hc]; [subst c; discriminate|]). contradiction.
    + split.
      * intros Hin.
        pose proof status_table_categories as Hcat. rewrite Forall_forall in Hcat.
        destruct (report_category_line _ _ _ _ Hin (Hcat c Hc)) as (c' & Hc' & Hb' & E').
        injection E' as E'.
        unfold has_bit. rewrite (status_table_descriptions c c' Hc Hc' E'). exact Hb'.
      * intros Hbit. now apply report_has_description.
  - rewrite Hb. fold a. destruct (Z.eqb_spec status 0) as [E|E].
    + unfold secondary. rewrite E, !has_bit_zero. reflexivity.
    + unfold secondary. simpl.
      destruct (has_bit status 32), (has_bit status 16), (has_bit status 8),
        (has_bit status 4), (has_bit status 2); reflexivity.
Qed.

Lemma readFaults_dispatch_witness :
  let w := fresh [[0x21; 0x00]; [0x88; 0x00]] in
  serial (exec readFaults w) =
    [Print "Fault Status: 0x"; PrintlnHex 0x0021;
     Println "FAULT: Output Overvoltage";
     Print "Output Voltage Fault"; Print " Details: 0x"; PrintlnHex 0x88;
     Println " - Output Overvoltage Fault";
     Println " - Output Undervoltage Fault";
     Println "FAULT: Unknown Fault"] /\
  bus (exec readFaults w) =
    [BusWrite 0x27 [RACM600_STATUS_WORD] false; BusRead 0x27 2;
     BusWrite 0x27 [RACM600_STATUS_VOUT] false; BusRead 0x27 2].
Proof.
  intros w.
  pose proof (readFaults_dispatch w 0x21 0x00 [] [[0x88; 0x00]]) as H.
  destruct H as (Hs & _ & Hb);
    [in_range | in_range | reflexivity |].
  split; [exact Hs | exact Hb].
Defined.

(** An unassigned bit on its own: status word 0x0400 gives the status line
    only, and no secondary read. *)
Example readFaults_unassigned_bit :
  let w := fresh [[0x00; 0x04]; [0xFF; 0xFF]] in
  readFaults w =
    (0x0400,
     mkWorld 0x27 (mkTwoWire 0x27 [] []) [[0xFF; 0xFF]]
             [BusWrite 0x27 [RACM600_STATUS_WORD] false; BusRead 0x27 2]
             [Print "Fault Status: 0x"; PrintlnHex 0x0400]).
Proof. reflexivity. Qed.

(** * Further properties of the codec *)

Lemma word_split (v : Z) : is_u16 v ->
  Z.lor (v mod 256) (Z.shiftl (v / 256) 8) = v.
Proof.
  intros Hv. change 256 with (2 ^ 8). apply Z.bits_inj'. intros n Hn.
  rewrite Z.lor_spec. destruct (Z.ltb_spec n 8).
  - rewrite Z.mod_pow2_bits_low, Z.shiftl_spec_low by lia. apply orb_false_r.
  - rewrite Z.mod_pow2_bits_high, Z.shiftl_spec, Z.div_pow2_bits by lia.
    simpl. f_equal. lia.
Qed.

Lemma split_bytes (v : Z) : is_u16 v -> is_u8 (v mod 256) /\ is_u8 (v / 256).
Proof.
  unfold is_u8, is_u16. intros Hv. split.
  - apply Z.mod_pos_bound. lia.
  - split; [apply Z.div_pos; lia | apply Z.div_lt_upper_bound; lia].
Qed.

(** The wire encoding of [writeCommand] and the decoding of [readCommand]
    are inverse to each other: the payload that follows the command byte in
    the frame written for a 16-bit [value], delivered as the answer to a
    word read, makes that read return [value]. *)
Theorem write_read_round_trip (w : World) (cmd value : Z) :
  is_u8 cmd -> is_u16 value ->
  exists payload,
    bus (exec (writeCommand cmd value) w) =
      bus w ++ [BusWrite (_address w) (cmd :: payload) true] /\
    forall (w2 : World) (cmd2 : Z) (rest : list (list Z)),
      device w2 = payload :: rest ->
      eval (readCommand cmd2) w2 = value.
Proof.
  intros Hc Hv. exists [value mod 256; value / 256].
  destruct (split_bytes value Hv) as (Hlo & Hhi). split.
  - unfold exec, writeCommand. cbn.
    rewrite lowByte_mod, highByte_div by assumption.
    now rewrite !to_u8_small by assumption.
  - intros w2 cmd2 rest Hd. unfold eval. rewrite readCommand_run, Hd. simpl.
    rewrite word_of_bytes by assumption. now apply word_split.
Qed.

Lemma write_read_round_trip_witness :
  exists payload,
    bus (exec (writeCommand 0x40 0xBEEF) (fresh [])) =
      [BusWrite 0x27 (0x40 :: payload) true] /\
    eval (readCommand 0x40) (fresh [payload]) = 0xBEEF.
Proof.
  destruct (write_read_round_trip (fresh []) 0x40 0xBEEF) as (payload & Hb & Hr);
    [in_range | in_range |].
  exists payload. split; [exact Hb|].
  apply (Hr (fresh [payload]) 0x40 []). reflexivity.
Defined.

Lemma lor_bytes_add (low high : Z) : is_u8 low -> is_u8 high ->
  Z.lor low (Z.shiftl high 8) = low + 256 * high.
Proof.
  intros Hl Hh.
  assert (E : Z.land low (Z.shiftl high 8) = 0).
  { apply Z.bits_inj'. intros n Hn. rewrite Z.land_spec, Z.bits_0.
    destruct (Z.ltb_spec n 8).
    - rewrite Z.shiftl_spec_low by lia. apply andb_false_r.
    - now rewrite (u8_bits_high low n) by (assumption || lia). }
  rewrite <- Z.lxor_lor, <- Z.add_nocarry_lxor by assumption.
  rewrite Z.shiftl_mul_pow2 by lia. change (2 ^ 8) with 256. lia.
Qed.

(** Whatever the transport delivers, the word [readCommand] returns lies
    in 0..65535; for a pair of bytes it is the number [low + 256 * high]. *)
Theorem readCommand_value (w : World) (cmd : Z) :
  is_u16 (eval (readCommand cmd) w) /\
  forall low high more rest,
    is_u8 low -> is_u8 high ->
    device w = (low :: high :: more) :: rest ->
    eval (readCommand cmd) w = low + 256 * high.
Proof.
  unfold eval. rewrite readCommand_run. simpl. split.
  - unfold word_of_answer.
    destruct (hd [] (device w)) as [|l [|h more]]; try (unfold is_u16; lia).
    unfold is_u16, to_u16. apply Z.mod_pos_bound. lia.
  - intros low high more rest Hl Hh Hd. rewrite Hd. simpl.
    rewrite word_of_bytes by assumption. now apply lor_bytes_add.
Qed.

Lemma readCommand_value_witness :
  eval (readCommand 0x8B) (fresh [[0x39; 0x30]]) = 0x39 + 256 * 0x30.
Proof.
  destruct (readCommand_value (fresh [[0x39; 0x30]]) 0x8B) as (_ & H).
  apply (H 0x39 0x30 [] []); [in_range | in_range | reflexivity].
Defined.

(** Word reads compose: each read takes the next device answer, and what
    an earlier read received, short or not, has no influence on the word a
    later read returns. *)
Theorem readCommand_twice (w : World) (cmd1 cmd2 low high : Z)
        (first more : list Z) (rest : list (list Z)) :
  is_u8 cmd1 -> is_u8 cmd2 -> is_u8 low -> is_u8 high ->
  device w = first :: (low :: high :: more) :: rest ->
  eval (readCommand cmd1 ;;; readCommand cmd2) w = Z.lor low (Z.shiftl high 8) /\
  bus (exec (readCommand cmd1 ;;; readCommand cmd2) w) =
    bus w ++ read_frames (_address w) cmd1 ++ read_frames (_address w) cmd2 /\
  device (exec (readCommand cmd1 ;;; readCommand cmd2) w) = rest.
Proof.
  intros H1 H2 Hl Hh Hd. unfold eval, exec, bind.
  rewrite readCommand_run, readCommand_run.
  unfold after_read. simpl. rewrite Hd. simpl.
  rewrite word_of_bytes, (to_u8_small cmd1), (to_u8_small cmd2) by assumption.
  rewrite <- app_assoc.
  split; [reflexivity | split; reflexivity].
Qed.

Lemma readCommand_twice_witness :
  eval (readCommand 0x79 ;;; readCommand 0x7A) (fresh [[0xAA]; [0x88; 0x01]]) = 0x0188.
Proof.
  destruct (readCommand_twice (fresh [[0xAA]; [0x88; 0x01]]) 0x79 0x7A 0x88 0x01
                              [0xAA] [] []) as (H & _ & _);
    [in_range | in_range | in_range | in_range | reflexivity |].
  exact H.
Defined.

(** * Further properties of the detail decoder *)

Lemma readDetailedFault_serial (reg : Z) (ty : string) (w : World) :
  serial (exec (readDetailedFault reg ty) w) =
  serial w ++ detail_report reg ty (to_u8 (word_of_answer (hd [] (device w)))).
Proof. unfold exec. now rewrite readDetailedFault_run. Qed.

Lemma detail_byte_of_pair (v high : Z) (more : list Z) :
  is_u8 v -> to_u8 (word_of_answer (v :: high :: more)) = v.
Proof.
  intros Hv. simpl. now rewrite low_byte_of_word, to_u8_small.
Qed.

(** Console output of a detail register, one [if] per assigned bit. *)
Ltac decode_detail Hv Hd :=
  rewrite readDetailedFault_serial, Hd; simpl hd;
  rewrite detail_byte_of_pair by exact Hv;
  unfold detail_report, detail_lines, flagged, has_bit; simpl;
  rewrite !app_nil_r; reflexivity.

(** For every 8-bit value [v] of STATUS_IOUT the console receives the label
    and the value, then one line for each of the bits 7, 6 and 5 that is
    set, independently; bits 4..0 give no line. *)
Theorem status_iout_decoding (w : World) (ty : string) (v high : Z)
        (more : list Z) (rest : list (list Z)) :
  is_u8 v ->
  device w = (v :: high :: more) :: rest ->
  serial (exec (readDetailedFault RACM600_STATUS_IOUT ty) w) =
    serial w ++
    [Print ty; Print " Details: 0x"; PrintlnHex v] ++
    (if Z.testbit v 7 then [Println " - Output Overcurrent Fault"] else []) ++
    (if Z.testbit v 6 then [Println " - Critical Constant Current Mode Fault"] else []) ++
    (if Z.testbit v 5 then [Println " - Output Overcurrent Warning"] else []).
Proof. intros Hv Hd. decode_detail Hv Hd. Qed.

Lemma status_iout_decoding_witness :
  serial (exec (readDetailedFault RACM600_STATUS_IOUT "Output Current Fault")
               (fresh [[0xBF; 0]])) =
  [Print "Output Current Fault"; Print " Details: 0x"; PrintlnHex 0xBF;
   Println " - Output Overcurrent Fault"; Println " - Output Overcurrent Warning"].
Proof.
  apply (status_iout_decoding (fresh [[0xBF; 0]]) "Output Current Fault" 0xBF 0 [] []);
    [in_range | reflexivity].
Defined.

(** For every 8-bit value [v] of STATUS_INPUT: one line for each of the
    bits 7, 6, 4 and 3 that is set, independently; bits 5, 2, 1, 0 give no
    line. *)
Theorem status_input_decoding (w : World) (ty : string) (v high : Z)
        (more : list Z) (rest : list (list Z)) :
  is_u8 v ->
  device w = (v :: high :: more) :: rest ->
  serial (exec (readDetailedFault RACM600_STATUS_INPUT ty) w) =
    serial w ++
    [Print ty; Print " Details: 0x"; PrintlnHex v] ++
    (if Z.testbit v 7 then [Println " - Input Overvoltage Fault"] else []) ++
    (if Z.testbit v 6 then [Println " - Input Overvoltage Warning"] else []) ++
    (if Z.testbit v 4 then [Println " - Input Undervoltage Warning"] else []) ++
    (if Z.testbit v 3 then [Println " - Input Undervoltage Fault"] else []).
Proof. intros Hv Hd. decode_detail Hv Hd. Qed.

Lemma status_input_decoding_witness :
  serial (exec (readDetailedFault RACM600_STATUS_INPUT "Input Fault")
               (fresh [[0x38; 0]])) =
  [Print "Input Fault"; Print " Details: 0x"; PrintlnHex 0x38;
   Println " - Input Undervoltage Warning"; Println " - Input Undervoltage Fault"].
Proof.
  apply (status_input_decoding (fresh [[0x38; 0]]) "Input Fault" 0x38 0 [] []);
    [in_range | reflexivity].
Defined.

(** For every 8-bit value [v] of STATUS_TEMPERATURE: one line for each of
    the bits 7 and 6 that is set, independently; bits 5..0 give no line. *)
Theorem status_temperature_decoding (w : World) (ty : string) (v high : Z)
        (more : list Z) (rest : list (list Z)) :
  is_u8 v ->
  device w = (v :: high :: more) :: rest ->
  serial (exec (readDetailedFault RACM600_STATUS_TEMPERATURE ty) w) =
    serial w ++
    [Print ty; Print " Details: 0x"; PrintlnHex v] ++
    (if Z.testbit v 7 then [Println " - Overtemperature Fault"] else []) ++
    (if Z.testbit v 6 then [Println " - Overtemperature Warning"] else []).
Proof. intros Hv Hd. decode_detail Hv Hd. Qed.

Lemma status_temperature_decoding_witness :
  serial (exec (readDetailedFault RACM600_STATUS_TEMPERATURE "Temperature Fault")
               (fresh [[0x7F; 0]])) =
  [Print "Temperature Fault"; Print " Details: 0x"; PrintlnHex 0x7F;
   Println " - Overtemperature Warning"].
Proof.
  apply (status_temperature_decoding (fresh [[0x7F; 0]]) "Temperature Fault" 0x7F 0 [] []);
    [in_range | reflexivity].
Defined.

(** For every 8-bit value [v] of STATUS_CML: one line for each of the bits
    7, 6 and 5 that is set, independently; bits 4..0 give no line. *)
Theorem status_cml_decoding (w : World) (ty : string) (v high : Z)
        (more : list Z) (rest : list (list Z)) :
  is_u8 v ->
  device w = (v :: high :: more) :: rest ->
  serial (exec (readDetailedFault RACM600_STATUS_CML ty) w) =
    serial w ++
    [Print ty; Print " Details: 0x"; PrintlnHex v] ++
    (if Z.testbit v 7 then [Println " - Invalid Command Received"] else []) ++
    (if Z.testbit v 6 then [Println " - Invalid Data Received"] else []) ++
    (if Z.testbit v 5 then [Println " - Packet Error Check Failed"] else []).
Proof. intros Hv Hd. decode_detail Hv Hd. Qed.

Lemma status_cml_decoding_witness :
  serial (exec (readDetailedFault RACM600_STATUS_CML "Communication Fault")
               (fresh [[0x60; 0]])) =
  [Print "Communication Fault"; Print " Details: 0x"; PrintlnHex 0x60;
   Println " - Invalid Data Received"; Println " - Packet Error Check Failed"].
Proof.
  apply (status_cml_decoding (fresh [[0x60; 0]]) "Communication Fault" 0x60 0 [] []);
    [in_range | reflexivity].
Defined.

Lemma detail_lines_unknown (reg v : Z) :
  ~ In reg detail_registers -> detail_lines reg v = [].
Proof.
  intros Hn. unfold detail_lines, detail_table. simpl.
  repeat match goal with
  | |- context [reg =? ?r] =>
      destruct (Z.eqb_spec reg r) as [E|_];
      [exfalso; apply Hn; rewrite E; unfold detail_registers; simpl; tauto|]
  end.
  reflexivity.
Qed.

Lemma detail_lines_low_bits (reg v : Z) :
  0 <= v < 8 -> detail_lines reg v = [].
Proof.
  intros Hv.
  assert (Hb : forall k, 3 <= k -> Z.testbit v k = false).
  { intros k Hk. rewrite <- (Z.mod_small v (2 ^ 3)) by (simpl; lia).
    apply Z.mod_pow2_bits_high. lia. }
  unfold detail_lines, detail_table, flagged, has_bit. simpl.
  rewrite !Hb by lia. simpl.
  repeat match goal with |- context [reg =? ?r] => destruct (reg =? r) end;
    reflexivity.
Qed.

(** A register that is none of the five detail registers is read all the
    same (one query, one answer consumed), and the console receives the
    label and the value only: no bit of the value is described. *)
Theorem unknown_register_header_only (w : World) (reg : Z) (ty : string)
        (v high : Z) (more : list Z) (rest : list (list Z)) :
  is_u8 reg -> is_u8 v ->
  ~ In reg detail_registers ->
  device w = (v :: high :: more) :: rest ->
  serial (exec (readDetailedFault reg ty) w) =
    serial w ++ [Print ty; Print " Details: 0x"; PrintlnHex v] /\
  bus (exec (readDetailedFault reg ty) w) = bus w ++ read_frames (_address w) reg /\
  device (exec (readDetailedFault reg ty) w) = rest.
Proof.
  intros Hr Hv Hn Hd. split.
  - rewrite readDetailedFault_serial, Hd. simpl hd.
    rewrite detail_byte_of_pair by exact Hv.
    unfold detail_report. now rewrite detail_lines_unknown.
  - unfold exec. rewrite readDetailedFault_run. unfold after_read. simpl.
    rewrite Hd, (to_u8_small reg) by assumption. split; reflexivity.
Qed.

Lemma unknown_register_header_only_witness :
  serial (exec (readDetailedFault RACM600_STATUS_WORD "Status") (fresh [[0xFF; 0xFF]])) =
  [Print "Status"; Print " Details: 0x"; PrintlnHex 0xFF].
Proof.
  destruct (unknown_register_header_only (fresh [[0xFF; 0xFF]]) RACM600_STATUS_WORD
              "Status" 0xFF 0xFF [] []) as (H & _ & _);
    [unfold is_u8, RACM600_STATUS_WORD; lia | in_range | | reflexivity | exact H].
  unfold detail_registers. simpl. intros H.
  repeat (destruct H as [H|H]; [discriminate H|]). exact H.
Defined.

(** A detail read that fails (fewer than two bytes delivered) is decoded as
    the value 0x00: for every register the console receives the label and
    the value 0 and no detail line, exactly as for a register whose bits
    are all clear; the query is still made and one answer consumed. *)
Theorem failed_detail_read (w : World) (reg : Z) (ty : string) :
  is_u8 reg ->
  (List.length (hd [] (device w)) < 2)%nat ->
  serial (exec (readDetailedFault reg ty) w) =
    serial w ++ [Print ty; Print " Details: 0x"; PrintlnHex 0] /\
  serial (exec (readDetailedFault reg ty) w) =
    serial (exec (readDetailedFault reg ty)
                 (with_device ([0; 0] :: tl (device w)) w)) /\
  bus (exec (readDetailedFault reg ty) w) = bus w ++ read_frames (_address w) reg /\
  device (exec (readDetailedFault reg ty) w) = tl (device w).
Proof.
  intros Hr Hshort.
  assert (E : word_of_answer (hd [] (device w)) = 0).
  { destruct (hd [] (device w)) as [|l [|h more]]; simpl in *; try reflexivity. lia. }
  rewrite !readDetailedFault_serial, E. simpl.
  unfold detail_report. rewrite (detail_lines_low_bits reg (to_u8 0)) by (cbv; split; congruence).
  split; [reflexivity|]. split.
  - rewrite (detail_lines_low_bits reg (to_u8 _)) by (cbv; split; congruence).
    reflexivity.
  - unfold exec. rewrite readDetailedFault_run. unfold after_read. simpl.
    rewrite (to_u8_small reg) by assumption. split; reflexivity.
Qed.

Lemma failed_detail_read_witness :
  serial (exec (readDetailedFault RACM600_STATUS_VOUT "Output Voltage Fault")
               (fresh [[0x88]])) =
  [Print "Output Voltage Fault"; Print " Details: 0x"; PrintlnHex 0].
Proof.
  destruct (failed_detail_read (fresh [[0x88]]) RACM600_STATUS_VOUT
                               "Output Voltage Fault") as (H & _);
    [in_range | simpl; lia | exact H].
Defined.

(** No detail register assigns a meaning to bits 2, 1 and 0: a value below
    8 gives the label and the value and no detail line, whichever register
    is read. *)
Theorem low_detail_bits_ignored (w : World) (reg : Z) (ty : string)
        (v high : Z) (more : list Z) (rest : list (list Z)) :
  0 <= v < 8 ->
  device w = (v :: high :: more) :: rest ->
  serial (exec (readDetailedFault reg ty) w) =
    serial w ++ [Print ty; Print " Details: 0x"; PrintlnHex v].
Proof.
  intros Hv Hd. rewrite readDetailedFault_serial, Hd. simpl hd.
  rewrite detail_byte_of_pair by (unfold is_u8; lia).
  unfold detail_report. now rewrite detail_lines_low_bits.
Qed.

Lemma low_detail_bits_ignored_witness :
  serial (exec (readDetailedFault RACM600_STATUS_INPUT "Input Fault") (fresh [[7; 0]])) =
  [Print "Input Fault"; Print " Details: 0x"; PrintlnHex 7].
Proof.
  apply (low_detail_bits_ignored (fresh [[7; 0]]) RACM600_STATUS_INPUT "Input Fault"
                                 7 0 [] []); [lia | reflexivity].
Defined.

(** * Further properties of the status decoder *)

Lemma word_of_short_answer (answer : list Z) :
  (List.length answer < 2)%nat -> word_of_answer answer = 0.
Proof.
  destruct answer as [|l [|h more]]; simpl; intros H; try reflexivity. lia.
Qed.

Lemma read_frames_query (a : Z) (regs : list Z) :
  Forall (is_query_frame a) (flat_map (read_frames a) regs).
Proof.
  apply Forall_flat_map, Forall_forall. intros r _.
  unfold read_frames. repeat constructor.
Qed.

Lemma secondary_reads_count (s : Z) :
  List.length (secondary_reads status_table s) =
  (Nat.b2n (has_bit s 0x0020) + Nat.b2n (has_bit s 0x0010) +
   Nat.b2n (has_bit s 0x0008) + Nat.b2n (has_bit s 0x0004) +
   Nat.b2n (has_bit s 0x0002))%nat.
Proof.
  simpl.
  destruct (has_bit s 32), (has_bit s 16), (has_bit s 8), (has_bit s 4),
    (has_bit s 2); reflexivity.
Qed.

(** A summary read that fails (fewer than two bytes delivered) is reported
    as a healthy supply: [readFaults] returns 0, the console receives the
    status line with value 0 and "No faults detected.", and no further
    register is queried. *)
Theorem readFaults_failed_summary (w : World) :
  (List.length (hd [] (device w)) < 2)%nat ->
  eval readFaults w = 0 /\
  serial (exec readFaults w) =
    serial w ++ [Print "Fault Status: 0x"; PrintlnHex 0;
                 Println "No faults detected."] /\
  bus (exec readFaults w) = bus w ++ read_frames (_address w) RACM600_STATUS_WORD.
Proof.
  intros Hshort.
  destruct (readFaults_run w) as (w' & Hrun & _ & _ & Hb & Hs).
  rewrite (word_of_short_answer _ Hshort) in *. simpl in *.
  unfold eval, exec. rewrite Hrun. simpl. now rewrite Hb, Hs.
Qed.

Lemma readFaults_failed_summary_witness :
  eval readFaults (fresh [[0xFF]; [0x88; 0x00]]) = 0.
Proof.
  destruct (readFaults_failed_summary (fresh [[0xFF]; [0x88; 0x00]])) as (H & _);
    [simpl; lia | exact H].
Defined.

(** [readFaults] only queries: every frame it adds to the bus is, at the
    object's own address, either a one-byte write naming a register and
    left open, or a request for two bytes.  It never sends a payload to
    the device, and it leaves the object's address as it was. *)
Theorem readFaults_only_queries (w : World) :
  _address (exec readFaults w) = _address w /\
  exists frames,
    bus (exec readFaults w) = bus w ++ frames /\
    Forall (is_query_frame (_address w)) frames.
Proof.
  destruct (readFaults_run w) as (w' & Hrun & Ha & _ & Hb & _).
  unfold exec. rewrite Hrun. simpl. split; [exact Ha|].
  eexists. split; [exact Hb | apply read_frames_query].
Qed.

(** Cost of one call of [readFaults], for the status word [s] it returns:
    with [n] the number of set bits among 0x0020, 0x0010, 0x0008, 0x0004
    and 0x0002, it consumes exactly [1 + n] device answers and adds exactly
    [2 * (1 + n)] frames to the bus; so never more than six queries. *)
Theorem readFaults_cost (w : World) :
  let s := eval readFaults w in
  let n := (Nat.b2n (has_bit s 0x0020) + Nat.b2n (has_bit s 0x0010) +
            Nat.b2n (has_bit s 0x0008) + Nat.b2n (has_bit s 0x0004) +
            Nat.b2n (has_bit s 0x0002))%nat in
  device (exec readFaults w) = skipn (1 + n) (device w) /\
  List.length (bus (exec readFaults w)) =
    (List.length (bus w) + 2 * (1 + n))%nat /\
  (n <= 5)%nat.
Proof.
  destruct (readFaults_run w) as (w' & Hrun & _ & Hd & Hb & _).
  unfold eval, exec. rewrite Hrun. cbv zeta. simpl fst. simpl snd.
  set (s := word_of_answer (hd [] (device w))) in *.
  set (n := (Nat.b2n (has_bit s 32) + Nat.b2n (has_bit s 16) +
             Nat.b2n (has_bit s 8) + Nat.b2n (has_bit s 4) +
             Nat.b2n (has_bit s 2))%nat).
  assert (En : List.length
                 (if s =? 0 then [] else secondary_reads status_table s) = n).
  { destruct (Z.eqb_spec s 0) as [E|E].
    - unfold n. rewrite E, !has_bit_zero. reflexivity.
    - apply secondary_reads_count. }
  split; [|split].
  - rewrite Hd. cbn [List.length]. now rewrite En.
  - rewrite Hb, length_app. f_equal.
    rewrite <- En. generalize (if s =? 0 then [] else secondary_reads status_table s).
    intros l. simpl. induction l as [|r l IH]; simpl; [reflexivity|]. lia.
  - unfold n.
    destruct (has_bit s 32), (has_bit s 16), (has_bit s 8), (has_bit s 4),
      (has_bit s 2); simpl; lia.
Qed.

Lemma filter_none {A : Type} (f : A -> bool) (l : list A) :
  Forall (fun x => f x = false) l -> filter f l = [].
Proof.
  induction 1 as [|x l Hx _ IH]; simpl; [reflexivity|]. now rewrite Hx.
Qed.

Lemma report_category_lines (tbl : list Category) (s : Z) (answers : list (list Z)) :
  Forall (fun c => is_category_line (Println (description c)) = true) tbl ->
  filter is_category_line (report tbl s answers) =
  map (fun c => Println (description c))
      (filter (fun c => has_bit s (mask c)) tbl).
Proof.
  intros Hcat. revert answers.
  induction Hcat as [|c tbl Hc _ IH]; intros answers; [reflexivity|].
  cbn [report filter]. destruct (has_bit s (mask c)); [|apply IH].
  destruct (detail c) as [[reg ty]|].
  - cbn [filter map]. rewrite Hc, filter_app.
    rewrite (filter_none _ _ (detail_report_no_category _ _ _)).
    simpl. now rewrite IH.
  - cbn [filter map]. rewrite Hc. now rewrite IH.
Qed.

(** The category lines of one call of [readFaults] (the console lines that
    start with "FAULT: " or "WARNING: ") are the descriptions of the set
    bits of the returned status word, each once, in the fixed order of the
    driver's tests: 0x0080 down to 0x0001, then 0x8000 down to 0x0100. *)
Theorem readFaults_category_order (w : World) :
  exists out,
    serial (exec readFaults w) = serial w ++ out /\
    filter is_category_line out =
    map (fun c => Println (description c))
        (filter (fun c => has_bit (eval readFaults w) (mask c)) status_table).
Proof.
  destruct (readFaults_run w) as (w' & Hrun & _ & _ & _ & Hs).
  unfold eval, exec. rewrite Hrun. simpl fst. simpl snd.
  set (s := word_of_answer (hd [] (device w))) in *.
  eexists. split; [exact Hs|].
  cbn [filter is_category_line].
  destruct (Z.eqb_spec s 0) as [E|E].
  - rewrite E. reflexivity.
  - apply report_category_lines, status_table_categories.
Qed.

Lemma report_all (P : SerialOut -> Prop) (tbl : list Category) (s : Z)
      (answers : list (list Z)) :
  Forall (fun c => P (Println (description c))) tbl ->
  (forall reg ty v, Forall P (detail_report reg ty v)) ->
  Forall P (report tbl s answers).
Proof.
  intros Htbl Hdet. revert answers.
  induction Htbl as [|c tbl Hc _ IH]; intros answers; [constructor|].
  cbn [report]. destruct (has_bit s (mask c)); [|apply IH].
  destruct (detail c) as [[reg ty]|].
  - constructor; [exact Hc|]. apply Forall_app. split; [apply Hdet | apply IH].
  - constructor; [exact Hc | apply IH].
Qed.

Lemma detail_report_not_healthy (reg : Z) (ty : string) (v : Z) :
  Forall (fun o => o <> Println "No faults detected.") (detail_report reg ty v).
Proof.
  unfold detail_report. repeat (constructor; [discriminate|]).
  unfold detail_lines. apply Forall_flat_map.
  unfold detail_table.
  repeat (constructor;
          [cbv beta; destruct (reg =? _); [|constructor];
           unfold flagged; apply Forall_flat_map;
           repeat (constructor;
                   [cbv beta; destruct (has_bit v _);
                    [constructor; [discriminate|constructor] | constructor]|]);
           constructor|]).
  constructor.
Qed.

Lemma status_table_not_healthy :
  Forall (fun c => Println (description c) <> Println "No faults detected.")
         status_table.
Proof.
  unfold status_table. repeat (constructor; [discriminate|]). constructor.
Qed.

Lemma report_not_healthy (s : Z) (answers : list (list Z)) :
  Forall (fun o => o <> Println "No faults detected.")
         (report status_table s answers).
Proof.
  apply report_all; [apply status_table_not_healthy | apply detail_report_not_healthy].
Qed.

Lemma healthy_line_iff_zero (s : Z) (answers : list (list Z)) :
  In (Println "No faults detected.")
     (Print "Fault Status: 0x" :: PrintlnHex s ::
        (if s =? 0 then [Println "No faults detected."]
         else report status_table s answers)) <-> s = 0.
Proof.
  destruct (Z.eqb_spec s 0) as [E|E].
  - split; [intros _; exact E | intros _; right; right; left; reflexivity].
  - split; [|intros H; contradiction].
    intros H. exfalso.
    apply in_inv in H. destruct H as [H|H]; [discriminate H|].
    apply in_inv in H. destruct H as [H|H]; [discriminate H|].
    pose proof (report_not_healthy s answers) as Hall.
    rewrite Forall_forall in Hall. exact (Hall _ H eq_refl).
Qed.

(** "No faults detected." is printed exactly when [readFaults] returns 0:
    a non-zero status word never produces that line, not even a word whose
    only set bit is the unassigned 0x0400. *)
Theorem no_faults_line_iff_zero (w : World) :
  exists out,
    serial (exec readFaults w) = serial w ++ out /\
    (In (Println "No faults detected.") out <-> eval readFaults w = 0).
Proof.
  destruct (readFaults_run w) as (w' & Hrun & _ & _ & _ & Hs).
  cbv zeta in Hs.
  assert (Ev : eval readFaults w = word_of_answer (hd [] (device w))).
  { unfold eval. now rewrite Hrun. }
  assert (Ex : exec readFaults w = w').
  { unfold exec. now rewrite Hrun. }
  rewrite Ev, Ex. eexists. split; [exact Hs|].
  apply healthy_line_iff_zero.
Qed.
